(** * StorageAPI: a key-value helper over the browser's storage areas

    Shallow embedding of [src/StorageAPI.ts]: the [StorageAPI] wrapper class
    (SaveItemWithExpiration, SaveItem, GetItem, Contains, Clear) and the
    [SaveUserSession] routine, together with the part of the host the code
    talks to: the two storage areas, the [browser] flag, the clock, and the
    JSON text codec. *)

From Stdlib Require Import ZArith String Ascii List DecimalString DecimalPos DecimalZ DecimalFacts.
From stdpp Require Import gmap strings.

Local Open Scope Z_scope.
Local Open Scope string_scope.

(** ** Plain data

    The values the wrapper stores are plain data, the trees JSON text can
    express.  Numbers are the integers, taken exactly: the only numbers the
    wrapper itself computes are epoch-millisecond timestamps, far inside
    the range where the host's numbers are exact. *)

#[warnings="-register-all"]
Inductive json : Type :=
| JNull
| JBool (b : bool)
| JNum (n : Z)
| JStr (s : string)
| JArr (elements : list json)
| JObj (members : list (string * json)).

(** What an expression of the source evaluates to: plain data, or
    [undefined] (reading a property that is not there). *)
Inductive jsval : Type :=
| Undefined
| Val (j : json).

Definition null : jsval := Val JNull.

(** ** The JSON codec of the host: [JSON.stringify] *)

Definition dquote : ascii := ascii_of_nat 34.
Definition backslash : ascii := ascii_of_nat 92.

Definition hex_digit (n : nat) : ascii :=
  ascii_of_nat (if (n <? 10)%nat then 48 + n else 87 + n)%nat.

(** QuoteJSONString, one code unit at a time. *)
Definition escape_char (c : ascii) : string :=
  let n := nat_of_ascii c in
  if (n =? 8)%nat then String backslash "b"
  else if (n =? 9)%nat then String backslash "t"
  else if (n =? 10)%nat then String backslash "n"
  else if (n =? 12)%nat then String backslash "f"
  else if (n =? 13)%nat then String backslash "r"
  else if (n =? 34)%nat then String backslash (String dquote EmptyString)
  else if (n =? 92)%nat then String backslash (String backslash EmptyString)
  else if (n <? 32)%nat then
    String backslash
      (String "u" (String "0" (String "0"
        (String (hex_digit (n / 16)) (String (hex_digit (n mod 16)) EmptyString)))))
  else String c EmptyString.

Fixpoint escape_string (s : string) : string :=
  match s with
  | EmptyString => EmptyString
  | String c rest => escape_char c ++ escape_string rest
  end.

Definition quote (s : string) : string :=
  String dquote (escape_string s ++ String dquote EmptyString).

Definition number_to_string (n : Z) : string :=
  NilZero.string_of_int (Z.to_int n).

(** The parts, with [sep] between two neighbours. *)
Fixpoint join (sep : string) (parts : list string) : string :=
  match parts with
  | [] => EmptyString
  | part :: rest =>
      match rest with
      | [] => part
      | _ :: _ => part ++ sep ++ join sep rest
      end
  end.

Fixpoint JSON_stringify (j : json) : string :=
  match j with
  | JNull => "null"
  | JBool true => "true"
  | JBool false => "false"
  | JNum n => number_to_string n
  | JStr s => quote s
  | JArr elements => "[" ++ join "," (map JSON_stringify elements) ++ "]"
  | JObj members =>
      "{" ++ join "," (map (fun '(k, x) => quote k ++ ":" ++ JSON_stringify x) members) ++ "}"
  end.

(** ** The JSON codec of the host: [JSON.parse]

    A lexer (one pass over the text) followed by a recursive-descent parser.
    Text the integer model cannot follow (a number with a fraction or an
    exponent, a [\u] escape above 7f) is reported apart from malformed
    text, so that nothing is claimed about it. *)

Inductive lexeme : Type :=
| TLBrace | TRBrace | TLBracket | TRBracket | TColon | TComma
| TString (s : string)
| TNumber (n : Z)
| TTrue | TFalse | TNull.

Inductive lexed : Type :=
| Tokens (ts : list lexeme)
| LexMalformed
| LexBeyond.

Inductive lex_state : Type :=
| Between
| InNumber (rev_lexeme : string)
| InString (rev_body : string).

Definition is_digit (c : ascii) : bool :=
  let n := nat_of_ascii c in ((48 <=? n) && (n <=? 57))%nat.

Definition is_whitespace (c : ascii) : bool :=
  let n := nat_of_ascii c in
  ((n =? 32) || (n =? 9) || (n =? 10) || (n =? 13))%nat.

Definition hex_value (c : ascii) : option nat :=
  let n := nat_of_ascii c in
  if ((48 <=? n) && (n <=? 57))%nat then Some (n - 48)%nat
  else if ((97 <=? n) && (n <=? 102))%nat then Some (n - 87)%nat
  else if ((65 <=? n) && (n <=? 70))%nat then Some (n - 55)%nat
  else None.

Inductive unicode_escape : Type :=
| UChar (c : ascii)
| UBeyond
| UMalformed.

Definition decode_unicode (a b c d : ascii) : unicode_escape :=
  match hex_value a, hex_value b, hex_value c, hex_value d with
  | Some x3, Some x2, Some x1, Some x0 =>
      let n := (((x3 * 16 + x2) * 16 + x1) * 16 + x0)%nat in
      if (n <? 128)%nat then UChar (ascii_of_nat n) else UBeyond
  | _, _, _, _ => UMalformed
  end.

Definition simple_escape (e : ascii) : option ascii :=
  let n := nat_of_ascii e in
  if (n =? 34)%nat then Some dquote
  else if (n =? 92)%nat then Some backslash
  else if (n =? 47)%nat then Some "/"%char
  else if (n =? 98)%nat then Some (ascii_of_nat 8)
  else if (n =? 102)%nat then Some (ascii_of_nat 12)
  else if (n =? 110)%nat then Some (ascii_of_nat 10)
  else if (n =? 114)%nat then Some (ascii_of_nat 13)
  else if (n =? 116)%nat then Some (ascii_of_nat 9)
  else None.

Fixpoint string_rev_append (s acc : string) : string :=
  match s with
  | EmptyString => acc
  | String c rest => string_rev_append rest (String c acc)
  end.

Definition string_rev (s : string) : string := string_rev_append s EmptyString.

(** A JSON integer literal: an optional minus, then 0 or a digit string
    that does not start with 0. *)
Definition leading_zero (digits : string) : bool :=
  match digits with
  | String c (String _ _) => (nat_of_ascii c =? 48)%nat
  | _ => false
  end.

Definition number_of_lexeme (lexeme : string) : option Z :=
  let digits :=
    match lexeme with
    | String c rest => if (nat_of_ascii c =? 45)%nat then rest else lexeme
    | EmptyString => lexeme
    end in
  if leading_zero digits then None
  else option_map Z.of_int (NilZero.int_of_string lexeme).

(** Closes the number literal being read, if any. *)
Definition flush (st : lex_state) (acc : list lexeme) : option (list lexeme) :=
  match st with
  | InNumber rev_lexeme =>
      option_map (fun n => TNumber n :: acc) (number_of_lexeme (string_rev rev_lexeme))
  | _ => Some acc
  end.

Definition pending (st : lex_state) : string :=
  match st with
  | InNumber rev_lexeme => rev_lexeme
  | _ => EmptyString
  end.

Fixpoint lex (st : lex_state) (s : string) (acc : list lexeme) {struct s} : lexed :=
  match st with
  | InString body =>
      match s with
      | EmptyString => LexMalformed
      | String c rest =>
          if Ascii.eqb c dquote then lex Between rest (TString (string_rev body) :: acc)
          else if Ascii.eqb c backslash then
            match rest with
            | EmptyString => LexMalformed
            | String e rest' =>
                if Ascii.eqb e "u" then
                  match rest' with
                  | String h3 (String h2 (String h1 (String h0 rest''))) =>
                      match decode_unicode h3 h2 h1 h0 with
                      | UChar x => lex (InString (String x body)) rest'' acc
                      | UBeyond => LexBeyond
                      | UMalformed => LexMalformed
                      end
                  | _ => LexMalformed
                  end
                else
                  match simple_escape e with
                  | Some x => lex (InString (String x body)) rest' acc
                  | None => LexMalformed
                  end
            end
          else if (nat_of_ascii c <? 32)%nat then LexMalformed
          else lex (InString (String c body)) rest acc
      end
  | _ =>
      match s with
      | EmptyString =>
          match flush st acc with
          | Some acc' => Tokens (rev acc')
          | None => LexMalformed
          end
      | String c rest =>
          if is_digit c then lex (InNumber (String c (pending st))) rest acc
          else
            match flush st acc with
            | None => LexMalformed
            | Some acc' =>
                if is_whitespace c then lex Between rest acc'
                else if Ascii.eqb c "{" then lex Between rest (TLBrace :: acc')
                else if Ascii.eqb c "}" then lex Between rest (TRBrace :: acc')
                else if Ascii.eqb c "[" then lex Between rest (TLBracket :: acc')
                else if Ascii.eqb c "]" then lex Between rest (TRBracket :: acc')
                else if Ascii.eqb c ":" then lex Between rest (TColon :: acc')
                else if Ascii.eqb c "," then lex Between rest (TComma :: acc')
                else if Ascii.eqb c dquote then lex (InString EmptyString) rest acc'
                else if Ascii.eqb c "-" then lex (InNumber (String c EmptyString)) rest acc'
                else if Ascii.eqb c "t" then
                  match rest with
                  | String "r" (String "u" (String "e" rest')) => lex Between rest' (TTrue :: acc')
                  | _ => LexMalformed
                  end
                else if Ascii.eqb c "f" then
                  match rest with
                  | String "a" (String "l" (String "s" (String "e" rest'))) =>
                      lex Between rest' (TFalse :: acc')
                  | _ => LexMalformed
                  end
                else if Ascii.eqb c "n" then
                  match rest with
                  | String "u" (String "l" (String "l" rest')) => lex Between rest' (TNull :: acc')
                  | _ => LexMalformed
                  end
                else if Ascii.eqb c "." || Ascii.eqb c "e" || Ascii.eqb c "E" then
                  match st with
                  | InNumber _ => LexBeyond
                  | _ => LexMalformed
                  end
                else LexMalformed
            end
      end
  end.

(** Recursive descent over the tokens.  [fuel] bounds the nesting of calls;
    [JSON_parse] below supplies more than any token list can use. *)
Fixpoint parse_value (fuel : nat) (ts : list lexeme) : option (json * list lexeme) :=
  match fuel with
  | O => None
  | S fuel' =>
      match ts with
      | TNull :: r => Some (JNull, r)
      | TTrue :: r => Some (JBool true, r)
      | TFalse :: r => Some (JBool false, r)
      | TNumber n :: r => Some (JNum n, r)
      | TString s :: r => Some (JStr s, r)
      | TLBracket :: TRBracket :: r => Some (JArr [], r)
      | TLBracket :: r =>
          option_map (fun '(l, r') => (JArr l, r')) (parse_elements fuel' r [])
      | TLBrace :: TRBrace :: r => Some (JObj [], r)
      | TLBrace :: r =>
          option_map (fun '(l, r') => (JObj l, r')) (parse_members fuel' r [])
      | _ => None
      end
  end
with parse_elements (fuel : nat) (ts : list lexeme) (acc : list json)
  : option (list json * list lexeme) :=
  match fuel with
  | O => None
  | S fuel' =>
      match parse_value fuel' ts with
      | Some (v, TComma :: r) => parse_elements fuel' r (v :: acc)
      | Some (v, TRBracket :: r) => Some (rev (v :: acc), r)
      | _ => None
      end
  end
with parse_members (fuel : nat) (ts : list lexeme) (acc : list (string * json))
  : option (list (string * json) * list lexeme) :=
  match fuel with
  | O => None
  | S fuel' =>
      match ts with
      | TString k :: TColon :: r =>
          match parse_value fuel' r with
          | Some (v, TComma :: r') => parse_members fuel' r' ((k, v) :: acc)
          | Some (v, TRBrace :: r') => Some (rev ((k, v) :: acc), r')
          | _ => None
          end
      | _ => None
      end
  end.

Inductive parsed : Type :=
| Parsed (j : json)
| Malformed
| Beyond.

Definition JSON_parse (text : string) : parsed :=
  match lex Between text [] with
  | Tokens ts =>
      match parse_value (2 * length ts + 2) ts with
      | Some (j, []) => Parsed j
      | _ => Malformed
      end
  | LexMalformed => Malformed
  | LexBeyond => Beyond
  end.

(** ** Values of the source language *)

(** Truthiness, as [if (x)] and [!x] test it. *)
Definition truthy (v : jsval) : bool :=
  match v with
  | Undefined => false
  | Val JNull => false
  | Val (JBool b) => b
  | Val (JNum n) => negb (n =? 0)%Z
  | Val (JStr s) => negb (String.eqb s EmptyString)
  | Val (JArr _) => true
  | Val (JObj _) => true
  end.

(** The own property [name] of a decoded object; a later member of the
    text overrides an earlier one of the same name. *)
Fixpoint lookup_member (name : string) (members : list (string * json)) : jsval :=
  match members with
  | [] => Undefined
  | (k, x) :: rest =>
      match lookup_member name rest with
      | Undefined => if String.eqb k name then Val x else Undefined
      | found => found
      end
  end.

Inductive error : Type :=
| SyntaxError
| TypeError.

(** How a call ends: it returns, it throws to its caller, or it leaves the
    fragment of the language modelled here. *)
Inductive completion (A : Type) : Type :=
| Normal (a : A)
| Throw (e : error)
| Unmodelled.
Arguments Normal {A} a.
Arguments Throw {A} e.
Arguments Unmodelled {A}.

(** ** The host: environment flag, clock and the two storage areas

    [browser] is the flag of [$app/environment]; [clock] is what [new Date()]
    reads; a storage area maps keys to text, and a write to it always
    succeeds (no quota).  The two areas are there whatever the flag says. *)

Inductive StorageType : Type :=
| local
| session.

Record Date : Type := { getTime : Z }.

Record host : Type := Host {
  browser : bool;
  clock : Z;
  localStorage : gmap string string;
  sessionStorage : gmap string string
}.

Definition js (A : Type) : Type := host -> completion A * host.

#[export] Instance js_ret : MRet js := fun A a h => (Normal a, h).
#[export] Instance js_bind : MBind js := fun A B f m h =>
  match m h with
  | (Normal a, h') => f a h'
  | (Throw e, h') => (Throw e, h')
  | (Unmodelled, h') => (Unmodelled, h')
  end.

Definition throw {A : Type} (e : error) : js A := fun h => (Throw e, h).
Definition unmodelled {A : Type} : js A := fun h => (Unmodelled, h).

Definition get_browser : js bool := fun h => (Normal (browser h), h).
Definition new_Date : js Date := fun h => (Normal {| getTime := clock h |}, h).

(** [this.storage === "local" ? localStorage : sessionStorage] *)
Definition area (t : StorageType) (h : host) : gmap string string :=
  match t with
  | local => localStorage h
  | session => sessionStorage h
  end.

Definition set_area (t : StorageType) (m : gmap string string) (h : host) : host :=
  match t with
  | local => Host (browser h) (clock h) m (sessionStorage h)
  | session => Host (browser h) (clock h) (localStorage h) m
  end.

Definition getItem (t : StorageType) (key : string) : js (option string) :=
  fun h => (Normal (area t h !! key), h).
Definition setItem (t : StorageType) (key text : string) : js unit :=
  fun h => (Normal tt, set_area t (<[key := text]> (area t h)) h).
Definition removeItem (t : StorageType) (key : string) : js unit :=
  fun h => (Normal tt, set_area t (delete key (area t h)) h).
Definition clear (t : StorageType) : js unit :=
  fun h => (Normal tt, set_area t ∅ h).

(** The clock moving on between two calls. *)
Definition at_time (t : Z) (h : host) : host :=
  Host (browser h) t (localStorage h) (sessionStorage h).

Definition parse (text : string) : js json :=
  match JSON_parse text with
  | Parsed j => mret j
  | Malformed => throw SyntaxError
  | Beyond => unmodelled
  end.

(** [item?.name]: no property is read off [null]. *)
Definition optional_get (item : json) (name : string) : jsval :=
  match item with
  | JObj members => lookup_member name members
  | _ => Undefined
  end.

(** [item.name], for the two names the code reads, [value] and [expires]:
    a string, number, boolean or array has neither; [null] has no
    properties at all. *)
Definition get (item : json) (name : string) : js jsval :=
  match item with
  | JNull => throw TypeError
  | _ => mret (optional_get item name)
  end.

(** [currentTime.getTime() > expires] for a truthy [expires].  The field is
    declared a number; [true] counts as 1; text, arrays and objects would be
    coerced through their string form, which is not modelled. *)
Definition greater_than (t : Z) (expires : jsval) : js bool :=
  match expires with
  | Val (JNum e) => mret (e <? t)%Z
  | Val (JBool true) => mret (1 <? t)%Z
  | _ => unmodelled
  end.

(** ** The module *)

Record ExpireProps : Type := { creationDate : Date; expiresIn : Z }.

Module Item.
Record t : Type := { value : json }.
End Item.

Module ItemWithExpiry.
Record t : Type := { value : json; expires : ExpireProps }.
End ItemWithExpiry.

(** The top-level bindings, evaluated once, when the module is loaded. *)
Record module : Type := { DefaultExpiration : ExpireProps }.

Definition load_module : js module :=
  d ← new_Date;
  mret {| DefaultExpiration := {| creationDate := d; expiresIn := 3600 * (24 * 7) |} |}.

Record StorageAPI : Type := { storage : StorageType }.

Definition new_StorageAPI (storageType : option StorageType) : StorageAPI :=
  {| storage := default local storageType |}.

(** The record [kvp] that SaveItemWithExpiration builds from its item. *)
Definition kvp (item : ItemWithExpiry.t) : json :=
  let creationDate := creationDate (ItemWithExpiry.expires item) in
  let expiresIn := expiresIn (ItemWithExpiry.expires item) in
  JObj [("value", ItemWithExpiry.value item);
        ("expires", JNum (getTime creationDate + expiresIn))].

Definition SaveItemWithExpiration (this : StorageAPI) (key : string)
    (item : ItemWithExpiry.t) : js unit :=
  b ← get_browser;
  if negb b then mret tt
  else
    setItem (storage this) key (JSON_stringify (kvp item)).

Definition SaveItem (this : StorageAPI) (key : string) (item : Item.t) : js unit :=
  b ← get_browser;
  if negb b then mret tt
  else setItem (storage this) key (JSON_stringify (Item.value item)).

(** [!stringValue]: no entry, or an entry of empty text. *)
Definition absent (stringValue : option string) : bool :=
  match stringValue with
  | None => true
  | Some text => String.eqb text EmptyString
  end.

Definition GetItem (this : StorageAPI) (key : string) : js jsval :=
  b ← get_browser;
  if negb b then mret null
  else
    stringValue ← getItem (storage this) key;
    if absent stringValue then mret null
    else
      item ← parse (default EmptyString stringValue);
      currentTime ← new_Date;
      if truthy (optional_get item "expires") then
        expired ← greater_than (getTime currentTime) (optional_get item "expires");
        if (expired : bool) then removeItem (storage this) key;; mret null
        else get item "value"
      else get item "value".

Definition Contains (this : StorageAPI) (key : string) : js bool :=
  stringValue ← getItem (storage this) key;
  mret (bool_decide (stringValue ≠ None)).

Definition Clear (this : StorageAPI) : js bool :=
  clear (storage this);;
  mret true.

(** The rest of GetItem once the text under the key has been decoded; the
    lemmas below run GetItem up to this point. *)
Definition after_decode (this : StorageAPI) (key : string) (item : json) : js jsval :=
  currentTime ← new_Date;
  if truthy (optional_get item "expires") then
    expired ← greater_than (getTime currentTime) (optional_get item "expires");
    if (expired : bool) then removeItem (storage this) key;; mret null
    else get item "value"
  else get item "value".

Record User : Type := {
  firstName : string;
  lastName : string;
  username : string;
  token : string
}.

Section Session.

(** Modelled from the spec: [generateRandomToken] of [$lib/modules/Helpers]
    is not among the sources; the spec gives it as a function producing a
    random textual token of the requested length.  Its randomness is a
    state [rng] of its own. *)
Variable rng : Type.
Variable generateRandomToken : nat -> rng -> string * rng.

(** [tokens]: the selector, then the validator, drawn one after the other. *)
Definition draw_tokens (g : rng) : string * string :=
  let '(selector, g1) := generateRandomToken 12 g in
  let '(validator, _) := generateRandomToken 32 g1 in
  (selector, validator).

Definition SaveUserSession (M : module) (user : User) (rememberMe : bool)
    (g : rng) : js unit :=
  let storage := new_StorageAPI None in
  let tokens := draw_tokens g in
  SaveItemWithExpiration storage "name"
    {| ItemWithExpiry.value := JStr (firstName user ++ " " ++ lastName user);
       ItemWithExpiry.expires := DefaultExpiration M |};;
  SaveItemWithExpiration storage "username"
    {| ItemWithExpiry.value := JStr (username user);
       ItemWithExpiry.expires := DefaultExpiration M |};;
  SaveItemWithExpiration storage "token"
    {| ItemWithExpiry.value := JStr (token user);
       ItemWithExpiry.expires := DefaultExpiration M |};;
  SaveItemWithExpiration storage "selector"
    {| ItemWithExpiry.value := JStr tokens.1;
       ItemWithExpiry.expires := DefaultExpiration M |};;
  if rememberMe then
    SaveItemWithExpiration storage "validator"
      {| ItemWithExpiry.value := JStr tokens.2;
         ItemWithExpiry.expires := DefaultExpiration M |}
  else
    SaveItem (new_StorageAPI (Some session)) "validator"
      {| Item.value := JStr tokens.2 |}.

End Session.
Arguments draw_tokens {rng} generateRandomToken g.
Arguments SaveUserSession {rng} generateRandomToken M user rememberMe g.

(** The text SaveItemWithExpiration stores for the text value [v] under the
    descriptor [d]. *)
Definition entry (d : ExpireProps) (v : string) : string :=
  JSON_stringify (kvp {| ItemWithExpiry.value := JStr v; ItemWithExpiry.expires := d |}).

(** The module as loaded when the clock showed [loaded]. *)
Definition module_loaded_at (loaded : Z) : module :=
  {| DefaultExpiration :=
       {| creationDate := {| getTime := loaded |}; expiresIn := 3600 * (24 * 7) |} |}.

(** ** Concrete hosts, items and users for the examples *)

Definition durable : StorageAPI := new_StorageAPI None.
Definition tab : StorageAPI := new_StorageAPI (Some session).

Definition fresh (browser : bool) (t : Z) : host := Host browser t ∅ ∅.

Definition expiring (v : json) (created expiresIn : Z) : ItemWithExpiry.t :=
  {| ItemWithExpiry.value := v;
     ItemWithExpiry.expires :=
       {| creationDate := {| getTime := created |}; expiresIn := expiresIn |} |}.

Definition plain (v : json) : Item.t := {| Item.value := v |}.

(** The host reached from [h] by running [call]. *)
Definition run {A : Type} (call : js A) (h : host) : host := (call h).2.

Definition T0 : Z := 1700000000000.

(** A host whose durable area holds text that is not JSON under "k". *)
Definition garbage_host (browser : bool) : host :=
  Host browser T0 {[ "k" := "not json" ]} ∅.

(** The spec's scenario: 42 saved under "x" at [T0] with [expiresIn] 10,
    and the host [later] milliseconds after. *)
Definition scenario_host (later : Z) : host :=
  at_time (T0 + later)
    (run (SaveItemWithExpiration durable "x" (expiring (JNum 42) T0 10)) (fresh true T0)).

(** An entry whose expiration instant is the epoch itself, read at [now]. *)
Definition epoch_host (now : Z) : host :=
  at_time now
    (run (SaveItemWithExpiration durable "x" (expiring (JNum 42) 0 0)) (fresh true 0)).

Definition ada : User :=
  {| firstName := "Ada"; lastName := "Lovelace"; username := "ada"; token := "tok123" |}.

(** A token generator for the examples: [n] times the letter a. *)
Fixpoint filler (n : nat) : string :=
  match n with
  | O => EmptyString
  | S k => String "a" (filler k)
  end.

Definition constant_tokens (n : nat) (g : unit) : string * unit := (filler n, g).

(** The module is loaded at clock 0; SaveUserSession runs for Ada at [T0]. *)
Definition session_host (rememberMe : bool) : host :=
  run (SaveUserSession constant_tokens (module_loaded_at 0) ada rememberMe tt) (fresh true T0).

(** The module is loaded at [T0], the instant at which SaveUserSession runs
    for Ada. *)
Definition prompt_session_host (rememberMe : bool) : host :=
  run (SaveUserSession constant_tokens (module_loaded_at T0) ada rememberMe tt)
    (fresh true T0).

(** A browser host at [T0] whose durable area holds [text] under "k". *)
Definition holding (text : string) : host := Host true T0 {[ "k" := text ]} ∅.

(** [h'] differs from [h] at most in what the area [t0] holds under [key]. *)
Definition same_elsewhere (t0 : StorageType) (key : string) (h h' : host) : Prop :=
  browser h' = browser h /\
  clock h' = clock h /\
  forall (t : StorageType) (k : string),
    t <> t0 \/ k <> key -> area t h' !! k = area t h !! k.

(** ** The lexemes of a value's text *)

Fixpoint join_lexemes (parts : list (list lexeme)) : list lexeme :=
  match parts with
  | [] => []
  | part :: rest =>
      match rest with
      | [] => part
      | _ :: _ => part ++ TComma :: join_lexemes rest
      end
  end.

Fixpoint lexemes (j : json) : list lexeme :=
  match j with
  | JNull => [TNull]
  | JBool true => [TTrue]
  | JBool false => [TFalse]
  | JNum n => [TNumber n]
  | JStr s => [TString s]
  | JArr elements => TLBracket :: join_lexemes (map lexemes elements) ++ [TRBracket]
  | JObj members =>
      TLBrace
        :: join_lexemes (map (fun '(k, x) => TString k :: TColon :: lexemes x) members)
        ++ [TRBrace]
  end.

(** Fuel that lets [parse_value] rebuild a value from its lexemes. *)
Fixpoint cost (j : json) : nat :=
  match j with
  | JArr elements => S (list_sum (map (fun x => S (cost x)) elements))
  | JObj members => S (list_sum (map (fun '(_, x) => S (cost x)) members))
  | _ => 1
  end.

(** What can follow a value in a text: the end, a comma or a closing
    bracket. *)
Definition closes (rest : string) : bool :=
  match rest with
  | EmptyString => true
  | String c _ => Ascii.eqb c "," || Ascii.eqb c "]" || Ascii.eqb c "}"
  end.

Fixpoint all_digits (s : string) : bool :=
  match s with
  | EmptyString => true
  | String c rest => is_digit c && all_digits rest
  end.

(** [part], followed by something that closes a value, lexes to [lexemes]. *)
Definition lexes_to (part : string) (part_lexemes : list lexeme) : Prop :=
  forall r acc,
    closes r = true ->
    lex Between (part ++ r) acc = lex Between r (rev part_lexemes ++ acc).

(** [parse_value] rebuilds [v] from its lexemes, given fuel for it. *)
Definition parses_back (v : json) : Prop :=
  forall fuel rest,
    (cost v <= fuel)%nat ->
    parse_value fuel (lexemes v ++ rest) = Some (v, rest).

(** ** The codec round trip: [JSON.parse] undoes [JSON.stringify] *)

Lemma json_induction (P : json -> Prop) :
  P JNull ->
  (forall b, P (JBool b)) ->
  (forall n, P (JNum n)) ->
  (forall s, P (JStr s)) ->
  (forall elements, Forall P elements -> P (JArr elements)) ->
  (forall members, Forall (fun member => P member.2) members -> P (JObj members)) ->
  forall j, P j.
Proof.
  intros HNull HBool HNum HStr HArr HObj.
  fix IH 1. intros [|b|n|s|elements|members].
  - exact HNull.
  - apply HBool.
  - apply HNum.
  - apply HStr.
  - apply HArr. induction elements as [|x l IHl]; constructor; [apply IH|exact IHl].
  - apply HObj. induction members as [|[k x] l IHl]; constructor; [apply IH|exact IHl].
Qed.

Lemma append_cons c s r : String c s ++ r = String c (s ++ r).
Proof. done. Qed.

Lemma append_assoc (s1 s2 s3 : string) : (s1 ++ s2) ++ s3 = s1 ++ (s2 ++ s3).
Proof.
  induction s1 as [|c s1 IH]; [done|]. by rewrite !append_cons, IH.
Qed.

Lemma string_rev_append_app s acc :
  string_rev_append s acc = string_rev s ++ acc.
Proof.
  unfold string_rev. revert acc.
  induction s as [|c s IH]; intros acc; cbn; [done|].
  rewrite (IH (String c acc)), (IH (String c EmptyString)), append_assoc. done.
Qed.

Lemma append_empty_r s : s ++ EmptyString = s.
Proof. induction s as [|c s IH]; [done|]. by rewrite append_cons, IH. Qed.

Lemma string_rev_involutive_app s body :
  string_rev (string_rev_append s body) = string_rev body ++ s.
Proof.
  revert body. induction s as [|c s IH]; intros body.
  - cbn. by rewrite append_empty_r.
  - change (string_rev_append (String c s) body)
      with (string_rev_append s (String c body)).
    rewrite IH. unfold string_rev. cbn.
    rewrite (string_rev_append_app body), append_assoc. done.
Qed.

Lemma lex_escape_char c body r acc :
  lex (InString body) (escape_char c ++ r) acc = lex (InString (String c body)) r acc.
Proof. destruct c as [[] [] [] [] [] [] [] []]; reflexivity. Qed.

Lemma lex_escape_string s body r acc :
  lex (InString body) (escape_string s ++ r) acc =
    lex (InString (string_rev_append s body)) r acc.
Proof.
  revert body. induction s as [|c s IH]; intros body; [done|].
  cbn [escape_string string_rev_append].
  rewrite append_assoc, lex_escape_char. apply IH.
Qed.

Lemma lex_quote s r acc :
  lex Between (quote s ++ r) acc = lex Between r (TString s :: acc).
Proof.
  unfold quote. rewrite append_cons, append_assoc, append_cons.
  change (lex Between (String dquote ?x) acc) with (lex (InString EmptyString) x acc).
  rewrite lex_escape_string.
  change (lex (InString ?b) (String dquote ?x) acc)
    with (lex Between x (TString (string_rev b) :: acc)).
  by rewrite string_rev_involutive_app.
Qed.

Lemma pos_to_uint_head p d : Pos.to_uint p <> Decimal.D0 d.
Proof.
  intros E.
  pose proof (Unsigned.to_of (Pos.to_uint p)) as H.
  rewrite Unsigned.of_to in H. cbn in H. rewrite E in H.
  unfold Decimal.unorm in H. cbn in H.
  destruct (Decimal.nzhead d) eqn:Hd; try discriminate.
  - injection H as ->. by apply (Unsigned.to_uint_nonzero p).
  - by apply (nzhead_nonzero d u).
Qed.

Lemma string_of_uint_digits d : all_digits (NilEmpty.string_of_uint d) = true.
Proof. induction d; cbn; done. Qed.

(** The decimal text of a number: a digit or a minus, then digits. *)
Lemma number_to_string_shape n :
  exists c ds,
    number_to_string n = String c ds /\
    (is_digit c = true \/ c = "-"%char) /\
    all_digits ds = true.
Proof.
  destruct n as [|p|p].
  - exists "0"%char, EmptyString. split; [done|]. split; [by left|done].
  - unfold number_to_string. cbn.
    pose proof (Unsigned.to_uint_nonnil p) as Hnil.
    pose proof (string_of_uint_digits (Pos.to_uint p)) as Hd.
    destruct (Pos.to_uint p); try done; cbn in *; eexists _, _;
      (split; [reflexivity|]); split; auto.
  - unfold number_to_string. cbn.
    pose proof (Unsigned.to_uint_nonnil p) as Hnil.
    pose proof (string_of_uint_digits (Pos.to_uint p)) as Hd.
    exists "-"%char. eexists. split; [reflexivity|]. split; [by right|].
    destruct (Pos.to_uint p); done.
Qed.

Lemma number_of_lexeme_to_string n : number_of_lexeme (number_to_string n) = Some n.
Proof.
  destruct n as [|p|p]; [done| |].
  - unfold number_of_lexeme, number_to_string.
    rewrite NilZero.isi;
      [|cbn; intros [= E]; by apply (Unsigned.to_uint_nonnil p)|done].
    pose proof (DecimalZ.of_to (Z.pos p)) as Hz. cbn [option_map]. rewrite Hz.
    cbn. pose proof (Unsigned.to_uint_nonnil p) as Hnil.
    pose proof (pos_to_uint_head p) as Hhead.
    destruct (Pos.to_uint p) as [|d|d|d|d|d|d|d|d|d|d]; try done;
      try (by destruct (Hhead d)); cbn;
      by destruct (NilEmpty.string_of_uint d).
  - unfold number_of_lexeme, number_to_string.
    rewrite NilZero.isi;
      [|done|cbn; intros [= E]; by apply (Unsigned.to_uint_nonnil p)].
    pose proof (DecimalZ.of_to (Z.neg p)) as Hz. cbn [option_map]. rewrite Hz.
    cbn. pose proof (Unsigned.to_uint_nonnil p) as Hnil.
    pose proof (pos_to_uint_head p) as Hhead.
    destruct (Pos.to_uint p) as [|d|d|d|d|d|d|d|d|d|d]; try done;
      try (by destruct (Hhead d)); cbn;
      by destruct (NilEmpty.string_of_uint d).
Qed.

Lemma lex_digits ds body r acc :
  all_digits ds = true ->
  lex (InNumber body) (ds ++ r) acc = lex (InNumber (string_rev_append ds body)) r acc.
Proof.
  revert body. induction ds as [|c ds IH]; intros body Hd; [done|].
  cbn in Hd. apply andb_prop in Hd as [Hc Hds].
  rewrite append_cons. cbn [lex string_rev_append]. rewrite Hc. cbn [pending].
  by apply IH.
Qed.

Lemma lex_number_start c ds r acc :
  is_digit c = true \/ c = "-"%char ->
  all_digits ds = true ->
  lex Between (String c ds ++ r) acc =
    lex (InNumber (string_rev_append (String c ds) EmptyString)) r acc.
Proof.
  intros [Hc| ->] Hds; rewrite append_cons.
  - cbn [lex string_rev_append]. rewrite Hc. cbn [pending]. by apply lex_digits.
  - change (lex Between (String "-" ?x) acc)
      with (lex (InNumber (String "-" EmptyString)) x acc).
    cbn [string_rev_append]. by apply lex_digits.
Qed.

Lemma lex_number_close body r acc n :
  closes r = true ->
  number_of_lexeme (string_rev body) = Some n ->
  lex (InNumber body) r acc = lex Between r (TNumber n :: acc).
Proof.
  intros Hr Hn. destruct r as [|c r].
  - cbn -[number_of_lexeme string_rev]. by rewrite Hn.
  - cbn in Hr.
    apply orb_prop in Hr as [Hr|Hr]; [apply orb_prop in Hr as [Hr|Hr]|];
      apply Ascii.eqb_eq in Hr; subst c;
      cbn -[number_of_lexeme string_rev]; by rewrite Hn.
Qed.

Lemma lex_number n r acc :
  closes r = true ->
  lex Between (number_to_string n ++ r) acc = lex Between r (TNumber n :: acc).
Proof.
  intros Hr.
  destruct (number_to_string_shape n) as (c & ds & Hshape & Hc & Hds).
  rewrite Hshape, (lex_number_start _ _ _ _ Hc Hds).
  apply (lex_number_close _ _ _ _ Hr).
  rewrite string_rev_involutive_app. cbn [string_rev string_rev_append].
  rewrite <- Hshape. apply number_of_lexeme_to_string.
Qed.

Lemma lex_join parts part_lexemes close acc :
  Forall2 lexes_to parts part_lexemes ->
  closes close = true ->
  lex Between (join "," parts ++ close) acc =
    lex Between close (rev (join_lexemes part_lexemes) ++ acc).
Proof.
  intros Hparts Hclose. revert acc.
  induction Hparts as [|part tk parts tks Hpart Hrest IH]; intros acc; [done|].
  cbn [join join_lexemes]. destruct Hrest as [|part' tk' parts' tks' Hpart' Hrest'].
  - by apply Hpart.
  - rewrite append_assoc, Hpart by done.
    rewrite append_assoc.
    change (lex Between ("," ++ ?x) ?a) with (lex Between x (TComma :: a)).
    rewrite IH. f_equal.
    rewrite rev_app_distr. cbn [rev]. by rewrite <- !app_assoc.
Qed.

Lemma lex_stringify v : lexes_to (JSON_stringify v) (lexemes v).
Proof.
  induction v as [|b|n|s|elements IH|members IH] using json_induction;
    intros r acc Hr.
  - reflexivity.
  - by destruct b.
  - by apply lex_number.
  - by apply lex_quote.
  - cbn [JSON_stringify lexemes].
    rewrite !append_assoc.
    change (lex Between ("[" ++ ?x) acc) with (lex Between x (TLBracket :: acc)).
    rewrite (lex_join _ (map lexemes elements)); [| |done].
    + change (lex Between ("]" ++ r) ?a) with (lex Between r (TRBracket :: a)).
      f_equal. cbn [rev]. rewrite rev_app_distr. cbn. by rewrite <- app_assoc.
    + clear -IH. induction IH; constructor; done.
  - cbn [JSON_stringify lexemes].
    rewrite !append_assoc.
    change (lex Between ("{" ++ ?x) acc) with (lex Between x (TLBrace :: acc)).
    rewrite (lex_join _ (map (fun '(k, x) => TString k :: TColon :: lexemes x) members));
      [| |done].
    + change (lex Between ("}" ++ r) ?a) with (lex Between r (TRBrace :: a)).
      f_equal. cbn [rev]. rewrite rev_app_distr. cbn. by rewrite <- app_assoc.
    + clear -IH. induction IH as [|[k x] members Hx _ IHm]; constructor; [|done].
      intros r acc Hr. rewrite !append_assoc, lex_quote.
      change (lex Between (":" ++ ?y) ?a) with (lex Between y (TColon :: a)).
      rewrite Hx by done. f_equal. cbn [rev]. by rewrite <- !app_assoc.
Qed.

Lemma lex_JSON_stringify v : lex Between (JSON_stringify v) [] = Tokens (lexemes v).
Proof.
  pose proof (lex_stringify v EmptyString [] eq_refl) as H.
  rewrite append_empty_r in H. rewrite H. cbn. by rewrite app_nil_r, rev_involutive.
Qed.

Lemma parse_value_array fuel ts :
  head ts <> Some TRBracket ->
  parse_value (S fuel) (TLBracket :: ts) =
    option_map (fun '(l, r') => (JArr l, r')) (parse_elements fuel ts []).
Proof. intros Hhead. by destruct ts as [|[] ts]. Qed.

Lemma parse_value_object fuel ts :
  head ts <> Some TRBrace ->
  parse_value (S fuel) (TLBrace :: ts) =
    option_map (fun '(l, r') => (JObj l, r')) (parse_members fuel ts []).
Proof. intros Hhead. by destruct ts as [|[] ts]. Qed.

Lemma lexemes_head v rest : head (lexemes v ++ rest) <> Some TRBracket.
Proof. by destruct v as [|[]| | | |]. Qed.

Lemma parse_elements_back elements rest :
  Forall parses_back elements ->
  elements <> [] ->
  forall fuel acc,
    (list_sum (map (fun x => S (cost x)) elements) <= fuel)%nat ->
    parse_elements fuel (join_lexemes (map lexemes elements) ++ TRBracket :: rest) acc =
      Some ((rev acc ++ elements)%list, rest).
Proof.
  induction 1 as [|x l Hx Hl IH]; [done|]. intros _ fuel acc Hfuel.
  cbn [map list_sum fold_right] in Hfuel.
  destruct fuel as [|fuel]; [lia|].
  cbn [map join_lexemes parse_elements].
  destruct l as [|y l].
  - rewrite Hx by (cbn in Hfuel; lia). cbn [rev]. by rewrite <- ?app_assoc.
  - cbn [map] in *. rewrite <- app_assoc. rewrite Hx by lia. cbn [app].
    rewrite IH; [|done|cbn [map list_sum fold_right] in *; lia].
    cbn [rev]. by rewrite <- ?app_assoc.
Qed.

Lemma parse_members_back members rest :
  Forall (fun member => parses_back member.2) members ->
  members <> [] ->
  forall fuel acc,
    (list_sum (map (fun '(_, x) => S (cost x)) members) <= fuel)%nat ->
    parse_members fuel
      (join_lexemes (map (fun '(k, x) => TString k :: TColon :: lexemes x) members)
         ++ TRBrace :: rest) acc =
      Some ((rev acc ++ members)%list, rest).
Proof.
  induction 1 as [|[k x] l Hx Hl IH]; [done|]. intros _ fuel acc Hfuel.
  cbn [snd] in Hx. cbn [map list_sum fold_right] in Hfuel.
  destruct fuel as [|fuel]; [lia|].
  cbn [map join_lexemes parse_members].
  destruct l as [|[k' y] l].
  - cbn [map app]. rewrite Hx by (cbn in Hfuel; lia). cbn [rev]. by rewrite <- ?app_assoc.
  - cbn [map] in *. rewrite <- app_assoc. cbn [app]. rewrite Hx by lia.
    rewrite IH; [|done|cbn [map list_sum fold_right] in *; lia].
    cbn [rev]. by rewrite <- ?app_assoc.
Qed.

Lemma parse_lexemes v : parses_back v.
Proof.
  induction v as [|b|n|s|elements IH|members IH] using json_induction;
    intros fuel rest Hfuel; cbn [cost] in Hfuel;
    (destruct fuel as [|fuel]; [lia|]).
  - done.
  - by destruct b.
  - done.
  - done.
  - cbn [lexemes]. destruct elements as [|x l]; [done|].
    cbn [app]. rewrite <- app_assoc. cbn [app].
    rewrite parse_value_array.
    + rewrite (parse_elements_back (x :: l) rest IH); [done|done|lia].
    + cbn [map join_lexemes].
      destruct l; cbn [map]; [|rewrite <- app_assoc]; apply lexemes_head.
  - cbn [lexemes]. destruct members as [|[k x] l]; [done|].
    cbn [app]. rewrite <- app_assoc. cbn [app].
    rewrite parse_value_object.
    + rewrite (parse_members_back ((k, x) :: l) rest IH); [done|done|lia].
    + cbn [map join_lexemes]. by destruct l.
Qed.

Lemma cost_bound v : (cost v <= 2 * length (lexemes v))%nat.
Proof.
  induction v as [|b|n|s|elements IH|members IH] using json_induction;
    try (cbn; lia).
  - by destruct b; cbn; lia.
  - cbn [cost lexemes length]. rewrite length_app. cbn [length].
    enough (list_sum (map (fun x => S (cost x)) elements)
            <= 2 * length (join_lexemes (map lexemes elements)) + 1)%nat by lia.
    induction IH as [|x l Hx Hl IHl]; [cbn; lia|].
    cbn [map list_sum fold_right join_lexemes]. destruct l as [|y l].
    + cbn. lia.
    + unfold list_sum in *. cbn [map fold_right] in *.
      rewrite length_app. cbn [length]. lia.
  - cbn [cost lexemes length]. rewrite length_app. cbn [length].
    enough (list_sum (map (fun '(_, x) => S (cost x)) members)
            <= 2 * length (join_lexemes
                             (map (fun '(k, x) => TString k :: TColon :: lexemes x) members))
               + 1)%nat by lia.
    induction IH as [|[k x] l Hx Hl IHl]; [cbn; lia|].
    cbn [map list_sum fold_right join_lexemes]. destruct l as [|[k' y] l].
    + cbn in *. lia.
    + unfold list_sum in *. cbn [map fold_right snd] in *.
      rewrite length_app. cbn [length]. lia.
Qed.

(** Decoding the text of a value gives the value back. *)
Lemma JSON_parse_stringify v : JSON_parse (JSON_stringify v) = Parsed v.
Proof.
  unfold JSON_parse. rewrite lex_JSON_stringify.
  pose proof (cost_bound v) as Hcost.
  pose proof (parse_lexemes v (2 * length (lexemes v) + 2)%nat [] ltac:(lia)) as H.
  rewrite app_nil_r in H. by rewrite H.
Qed.

(** ** Running the calls *)

Lemma area_set_area (t : StorageType) (m : gmap string string) (h : host) :
  area t (set_area t m h) = m.
Proof. by destruct t. Qed.

Lemma set_area_area (t : StorageType) (h : host) : set_area t (area t h) h = h.
Proof. by destruct t, h. Qed.

Lemma browser_set_area (t : StorageType) (m : gmap string string) (h : host) :
  browser (set_area t m h) = browser h.
Proof. by destruct t. Qed.

Lemma clock_set_area (t : StorageType) (m : gmap string string) (h : host) :
  clock (set_area t m h) = clock h.
Proof. by destruct t. Qed.

Lemma SaveItemWithExpiration_browser this key item h :
  browser h = true ->
  SaveItemWithExpiration this key item h =
    (Normal tt,
     set_area (storage this) (<[key := JSON_stringify (kvp item)]> (area (storage this) h)) h).
Proof.
  intros Hb. unfold SaveItemWithExpiration, mbind, js_bind, get_browser. cbn.
  by rewrite Hb.
Qed.

Lemma SaveItem_browser this key item h :
  browser h = true ->
  SaveItem this key item h =
    (Normal tt,
     set_area (storage this)
       (<[key := JSON_stringify (Item.value item)]> (area (storage this) h)) h).
Proof.
  intros Hb. unfold SaveItem, mbind, js_bind, get_browser. cbn.
  by rewrite Hb.
Qed.

Lemma JSON_parse_nonempty text item :
  JSON_parse text = Parsed item -> String.eqb text EmptyString = false.
Proof. by destruct text. Qed.

Lemma GetItem_decoded this key h text item :
  browser h = true ->
  area (storage this) h !! key = Some text ->
  JSON_parse text = Parsed item ->
  GetItem this key h = after_decode this key item h.
Proof.
  intros Hb Hk Hp.
  unfold GetItem, after_decode, mbind, js_bind, get_browser, getItem, parse. cbn.
  rewrite Hb. cbn. rewrite Hk. cbn. rewrite (JSON_parse_nonempty _ _ Hp). cbn.
  rewrite Hp. done.
Qed.

Lemma GetItem_missing this key h :
  area (storage this) h !! key = None -> GetItem this key h = (Normal null, h).
Proof.
  intros Hk. unfold GetItem, mbind, js_bind, get_browser, getItem. cbn.
  destruct (browser h); cbn; [|done]. by rewrite Hk.
Qed.

Lemma bind_normal {A B : Type} (m : js A) (f : A -> js B) h a h' :
  m h = (Normal a, h') -> (m ≫= f) h = f a h'.
Proof. intros H. unfold mbind, js_bind. by rewrite H. Qed.

Lemma Contains_run this key h :
  Contains this key h = (Normal (bool_decide (area (storage this) h !! key ≠ None)), h).
Proof. done. Qed.

(** ** The environment guard *)

(** C7: outside a browsing context SaveItem and SaveItemWithExpiration return
    at once and leave the host, hence both storage areas, as they were; GetItem
    returns null whatever the storage areas hold, and none of the three
    throws. *)
Theorem outside_browser_nothing_happens this key item expiring_item h :
  browser h = false ->
  SaveItem this key item h = (Normal tt, h) /\
  SaveItemWithExpiration this key expiring_item h = (Normal tt, h) /\
  GetItem this key h = (Normal null, h).
Proof.
  intros Hb.
  unfold SaveItem, SaveItemWithExpiration, GetItem, mbind, js_bind, get_browser.
  cbn. rewrite Hb. done.
Qed.

Lemma outside_browser_nothing_happens_witness :
  browser (garbage_host false) = false /\
  SaveItem durable "k" (plain (JNum 1)) (garbage_host false) =
    (Normal tt, garbage_host false) /\
  SaveItemWithExpiration durable "k" (expiring (JNum 1) T0 10) (garbage_host false) =
    (Normal tt, garbage_host false) /\
  GetItem durable "k" (garbage_host false) = (Normal null, garbage_host false).
Proof.
  split; [reflexivity|].
  apply (outside_browser_nothing_happens durable "k").
  reflexivity.
Defined.

(** ** Clear *)

(** C8: Clear empties the storage area the wrapper was built for and returns
    true, whatever the host; afterwards the wrapper reports false from
    Contains and null from GetItem for every key, those the area held
    before included. *)
Theorem Clear_empties_the_area this h :
  Clear this h = (Normal true, set_area (storage this) ∅ h) /\
  area (storage this) (run (Clear this) h) = ∅ /\
  forall key : string,
    Contains this key (run (Clear this) h) = (Normal false, run (Clear this) h) /\
    GetItem this key (run (Clear this) h) = (Normal null, run (Clear this) h).
Proof.
  split; [done|].
  change (run (Clear this) h) with (set_area (storage this) ∅ h).
  split; [apply area_set_area|].
  intros key. split.
  - rewrite Contains_run, area_set_area, lookup_empty. done.
  - apply GetItem_missing. rewrite area_set_area. apply lookup_empty.
Qed.

(** ** Contains *)

(** C6: Contains returns true as soon as some text is stored under the key in
    the wrapper's area, and neither reads the clock nor decodes the text; so
    right after a save to the key (with or without expiration, in a browsing
    context) it returns true at any later instant, also one past the entry's
    expiration, as long as GetItem has not run. *)
Theorem Contains_ignores_expiration this key :
  (forall h text,
     area (storage this) h !! key = Some text ->
     Contains this key h = (Normal true, h)) /\
  (forall h item t,
     browser h = true ->
     let h' := at_time t (run (SaveItemWithExpiration this key item) h) in
     Contains this key h' = (Normal true, h')) /\
  (forall h item t,
     browser h = true ->
     let h' := at_time t (run (SaveItem this key item) h) in
     Contains this key h' = (Normal true, h')).
Proof.
  split; [|split].
  - intros h text Hk. rewrite Contains_run, Hk. done.
  - intros h item t Hb h'. subst h'. unfold run.
    rewrite (SaveItemWithExpiration_browser _ _ _ _ Hb), Contains_run. cbn.
    destruct this as [[]]; cbn; by rewrite lookup_insert_eq.
  - intros h item t Hb h'. subst h'. unfold run.
    rewrite (SaveItem_browser _ _ _ _ Hb), Contains_run. cbn.
    destruct this as [[]]; cbn; by rewrite lookup_insert_eq.
Qed.

Lemma Contains_ignores_expiration_witness :
  Contains durable "k" (garbage_host true) = (Normal true, garbage_host true) /\
  Contains durable "x" (scenario_host 15000) = (Normal true, scenario_host 15000) /\
  Contains tab "k" (at_time (T0 + 1) (run (SaveItem tab "k" (plain (JNum 42))) (fresh true T0))) =
    (Normal true, at_time (T0 + 1) (run (SaveItem tab "k" (plain (JNum 42))) (fresh true T0))).
Proof.
  split; [|split].
  - apply (proj1 (Contains_ignores_expiration durable "k") (garbage_host true) "not json").
    reflexivity.
  - apply (proj1 (proj2 (Contains_ignores_expiration durable "x")) (fresh true T0)).
    reflexivity.
  - apply (proj2 (proj2 (Contains_ignores_expiration tab "k")) (fresh true T0)).
    reflexivity.
Defined.

(** ** GetItem and expiration *)

Lemma area_at_time t' t h : area t' (at_time t h) = area t' h.
Proof. by destruct t'. Qed.

Lemma truthy_number e : truthy (Val (JNum e)) = negb (e =? 0)%Z.
Proof. done. Qed.

(** GetItem on an entry that decodes to a record with a numeric [expires]:
    evicted when the number is not 0 and the clock is past it, returned
    otherwise. *)
Lemma GetItem_numeric_expires this key h text item e :
  browser h = true ->
  area (storage this) h !! key = Some text ->
  JSON_parse text = Parsed item ->
  optional_get item "expires" = Val (JNum e) ->
  GetItem this key h =
    if negb (e =? 0)%Z && (e <? clock h)%Z
    then (Normal null, set_area (storage this) (delete key (area (storage this) h)) h)
    else (Normal (optional_get item "value"), h).
Proof.
  intros Hb Hk Hp He.
  rewrite (GetItem_decoded _ _ _ _ _ Hb Hk Hp).
  unfold after_decode, mbind, js_bind, new_Date. cbn.
  rewrite He, truthy_number.
  assert (get item "value" h = (Normal (optional_get item "value"), h)) as Hget.
  { destruct item; try done. }
  destruct (e =? 0)%Z; cbn; [done|].
  destruct (e <? clock h)%Z; cbn; done.
Qed.

(** C3, amended: in a browsing context, GetItem on a key whose entry decodes
    to a record with a numeric [expires] other than 0 that the clock has
    passed returns null and removes the key from the wrapper's area, so that
    Contains on the resulting host returns false. *)
Theorem GetItem_evicts_expired_entry this key h text item e :
  browser h = true ->
  area (storage this) h !! key = Some text ->
  JSON_parse text = Parsed item ->
  optional_get item "expires" = Val (JNum e) ->
  e <> 0 ->
  e < clock h ->
  GetItem this key h =
    (Normal null, set_area (storage this) (delete key (area (storage this) h)) h) /\
  area (storage this) (run (GetItem this key) h) !! key = None /\
  Contains this key (run (GetItem this key) h) = (Normal false, run (GetItem this key) h).
Proof.
  intros Hb Hk Hp He Hnz Hlt.
  assert (GetItem this key h =
    (Normal null, set_area (storage this) (delete key (area (storage this) h)) h)) as Hrun.
  { rewrite (GetItem_numeric_expires _ _ _ _ _ _ Hb Hk Hp He).
    apply Z.eqb_neq in Hnz. apply Z.ltb_lt in Hlt. by rewrite Hnz, Hlt. }
  split; [done|]. unfold run. rewrite Hrun. cbn.
  assert (area (storage this)
            (set_area (storage this) (delete key (area (storage this) h)) h) !! key = None)
    as Hgone by (rewrite area_set_area; apply lookup_delete_eq).
  split; [done|]. rewrite Contains_run, Hgone. done.
Qed.

Lemma GetItem_evicts_expired_entry_witness :
  browser (scenario_host 15000) = true /\
  localStorage (scenario_host 15000) !! "x" = Some (JSON_stringify (kvp (expiring (JNum 42) T0 10))) /\
  JSON_parse (JSON_stringify (kvp (expiring (JNum 42) T0 10))) = Parsed (kvp (expiring (JNum 42) T0 10)) /\
  T0 + 10 <> 0 /\
  T0 + 10 < clock (scenario_host 15000) /\
  GetItem durable "x" (scenario_host 15000) = (Normal null, fresh true (T0 + 15000)) /\
  Contains durable "x" (run (GetItem durable "x") (scenario_host 15000)) =
    (Normal false, fresh true (T0 + 15000)).
Proof.
  assert (T0 + 10 <> 0) as Hnz by (vm_compute; discriminate).
  assert (T0 + 10 < clock (scenario_host 15000)) as Hlt by reflexivity.
  pose proof (GetItem_evicts_expired_entry durable "x" (scenario_host 15000)
                (JSON_stringify (kvp (expiring (JNum 42) T0 10)))
                (kvp (expiring (JNum 42) T0 10)) (T0 + 10)
                eq_refl eq_refl eq_refl eq_refl Hnz Hlt) as [H1 [_ H3]].
  do 3 (split; [reflexivity|]).
  do 2 (split; [assumption|]).
  split; [rewrite H1 | rewrite H3]; reflexivity.
Defined.

(** C3 as stated fails when the expiration instant is the epoch: an entry
    saved with creation instant 0 and [expiresIn] 0 carries [expires] 0; read
    at clock 5, strictly later, GetItem returns its value 42 instead of null
    and the key stays, so that Contains still returns true. *)
Lemma GetItem_keeps_entry_expired_at_epoch :
  localStorage (epoch_host 5) !! "x" =
    Some (JSON_stringify (JObj [("value", JNum 42); ("expires", JNum 0)])) /\
  JSON_parse (JSON_stringify (JObj [("value", JNum 42); ("expires", JNum 0)])) =
    Parsed (JObj [("value", JNum 42); ("expires", JNum 0)]) /\
  optional_get (JObj [("value", JNum 42); ("expires", JNum 0)]) "expires" = Val (JNum 0) /\
  0 < clock (epoch_host 5) /\
  GetItem durable "x" (epoch_host 5) = (Normal (Val (JNum 42)), epoch_host 5) /\
  Contains durable "x" (run (GetItem durable "x") (epoch_host 5)) =
    (Normal true, epoch_host 5).
Proof. repeat split. Qed.

(** C9: for an entry that decodes to a record with a numeric [expires], read
    in a browsing context: when [expires] equals the clock at the read, GetItem
    returns the record's [value] and leaves the host as it was; and whenever
    the read removes the key, the clock is strictly past [expires]. *)
Theorem GetItem_expiry_is_strict this key h text item e :
  browser h = true ->
  area (storage this) h !! key = Some text ->
  JSON_parse text = Parsed item ->
  optional_get item "expires" = Val (JNum e) ->
  (e = clock h -> GetItem this key h = (Normal (optional_get item "value"), h)) /\
  (area (storage this) (run (GetItem this key) h) !! key = None -> e < clock h).
Proof.
  intros Hb Hk Hp He.
  pose proof (GetItem_numeric_expires _ _ _ _ _ _ Hb Hk Hp He) as Hrun.
  split.
  - intros ->. rewrite Hrun, Z.ltb_irrefl, andb_false_r. done.
  - unfold run. rewrite Hrun.
    destruct (e <? clock h)%Z eqn:Hlt; [intros _; by apply Z.ltb_lt|].
    rewrite andb_false_r. cbn. rewrite Hk. done.
Qed.

Lemma GetItem_expiry_is_strict_witness :
  browser (scenario_host 10) = true /\
  localStorage (scenario_host 10) !! "x" = Some (JSON_stringify (kvp (expiring (JNum 42) T0 10))) /\
  JSON_parse (JSON_stringify (kvp (expiring (JNum 42) T0 10))) =
    Parsed (kvp (expiring (JNum 42) T0 10)) /\
  T0 + 10 = clock (scenario_host 10) /\
  GetItem durable "x" (scenario_host 10) = (Normal (Val (JNum 42)), scenario_host 10).
Proof.
  do 4 (split; [reflexivity|]).
  apply (proj1 (GetItem_expiry_is_strict durable "x" (scenario_host 10)
                  (JSON_stringify (kvp (expiring (JNum 42) T0 10)))
                  (kvp (expiring (JNum 42) T0 10)) (T0 + 10)
                  eq_refl eq_refl eq_refl eq_refl)).
  reflexivity.
Defined.

(** C10: GetItem tests the decoded [expires] for truthiness: when the entry
    decodes to a record whose [expires] is 0, false, null, empty text or
    missing, GetItem in a browsing context returns the record's [value]
    whatever the clock shows, and leaves the entry where it is. *)
Theorem GetItem_falsy_expires_never_expires this key h text members :
  browser h = true ->
  area (storage this) h !! key = Some text ->
  JSON_parse text = Parsed (JObj members) ->
  truthy (lookup_member "expires" members) = false ->
  forall t : Z,
    GetItem this key (at_time t h) = (Normal (lookup_member "value" members), at_time t h).
Proof.
  intros Hb Hk Hp Hfalsy t.
  rewrite (GetItem_decoded this key (at_time t h) text (JObj members));
    [| done | by rewrite area_at_time | done].
  unfold after_decode, mbind, js_bind, new_Date. cbn. by rewrite Hfalsy.
Qed.

Lemma GetItem_falsy_expires_never_expires_witness :
  browser (epoch_host 0) = true /\
  localStorage (epoch_host 0) !! "x" =
    Some (JSON_stringify (JObj [("value", JNum 42); ("expires", JNum 0)])) /\
  JSON_parse (JSON_stringify (JObj [("value", JNum 42); ("expires", JNum 0)])) =
    Parsed (JObj [("value", JNum 42); ("expires", JNum 0)]) /\
  truthy (lookup_member "expires" [("value", JNum 42); ("expires", JNum 0)]) = false /\
  GetItem durable "x" (at_time T0 (epoch_host 0)) =
    (Normal (Val (JNum 42)), at_time T0 (epoch_host 0)).
Proof.
  do 4 (split; [reflexivity|]).
  apply (GetItem_falsy_expires_never_expires durable "x" (epoch_host 0)
           (JSON_stringify (JObj [("value", JNum 42); ("expires", JNum 0)]))
           [("value", JNum 42); ("expires", JNum 0)]
           eq_refl eq_refl eq_refl eq_refl T0).
Defined.

(** ** SaveItemWithExpiration and SaveItem *)

(** In a browsing context the record stored carries the value and the sum of
    the creation instant and [expiresIn], as they are. *)
Lemma SaveItemWithExpiration_stores this key item h :
  browser h = true ->
  area (storage this) (run (SaveItemWithExpiration this key item) h) !! key =
    Some (JSON_stringify
            (JObj [("value", ItemWithExpiry.value item);
                   ("expires",
                    JNum (getTime (creationDate (ItemWithExpiry.expires item))
                          + expiresIn (ItemWithExpiry.expires item)))])).
Proof.
  intros Hb. unfold run. rewrite (SaveItemWithExpiration_browser _ _ _ _ Hb). cbn.
  rewrite area_set_area. apply lookup_insert_eq.
Qed.

(** C1: at the instant [T0] = 1700000000000, saving 42 under "x" with creation
    instant [T0] and [expiresIn] 10 stores [expires] = [T0] + 10, the two
    numbers added as they are, and not [T0] + 10 * 1000; read five seconds
    later the entry is already treated as expired. *)
Theorem SaveItemWithExpiration_adds_expiresIn_unscaled :
  localStorage (scenario_host 0) !! "x" =
    Some (JSON_stringify (JObj [("value", JNum 42); ("expires", JNum (T0 + 10))])) /\
  localStorage (scenario_host 0) !! "x" <>
    Some (JSON_stringify (JObj [("value", JNum 42); ("expires", JNum (T0 + 10 * 1000))])) /\
  GetItem durable "x" (scenario_host 5000) = (Normal null, fresh true (T0 + 5000)).
Proof. split; [reflexivity|]. split; [discriminate|reflexivity]. Qed.

(** SaveItem followed by GetItem: GetItem decodes the bare value back and
    treats it as the stored record. *)
Lemma SaveItem_then_GetItem this key v h :
  browser h = true ->
  (SaveItem this key (plain v);; GetItem this key) h =
    after_decode this key v (run (SaveItem this key (plain v)) h).
Proof.
  intros Hb. unfold run.
  rewrite (bind_normal _ _ _ _ _ (SaveItem_browser _ _ _ _ Hb)).
  rewrite (SaveItem_browser _ _ _ _ Hb). cbn.
  apply (GetItem_decoded _ _ _ (JSON_stringify v)).
  - by rewrite browser_set_area.
  - rewrite area_set_area. apply lookup_insert_eq.
  - apply JSON_parse_stringify.
Qed.

Lemma lookup_member_cost name members x :
  lookup_member name members = Val x -> (cost x < cost (JObj members))%nat.
Proof.
  induction members as [|[k y] members IH]; [done|].
  cbn [lookup_member cost map list_sum fold_right] in *.
  set (others := list_sum (map (fun '(_, x) => S (cost x)) members)) in *.
  change (fold_right Init.Nat.add 0%nat (map (fun '(_, x) => S (cost x)) members))
    with others.
  destruct (lookup_member name members) as [|found].
  - destruct (String.eqb k name); [|discriminate]. intros [= ->]. lia.
  - intros [= ->]. specialize (IH eq_refl). lia.
Qed.

(** X4: no value survives the trip through SaveItem: in a browsing context,
    whatever plain value is saved with SaveItem, GetItem on the same key
    right after does not return it. *)
Lemma SaveItem_then_GetItem_never_returns_the_value this key v h :
  browser h = true ->
  ((SaveItem this key (plain v);; GetItem this key) h).1 <> Normal (Val v).
Proof.
  intros Hb. rewrite (SaveItem_then_GetItem _ _ _ _ Hb).
  generalize (run (SaveItem this key (plain v)) h). intros h'.
  unfold after_decode, mbind, js_bind, new_Date. cbn.
  destruct v as [|b|n|s|elements|members]; try done.
  cbn [optional_get get].
  assert (lookup_member "value" members <> Val (JObj members)) as Hvalue.
  { intros Heq. apply lookup_member_cost in Heq. lia. }
  destruct (truthy (lookup_member "expires" members));
    [|cbn; intros [= Heq]; by apply Hvalue].
  destruct (lookup_member "expires" members) as [|[|[]|e|?|?|?]]; cbn; try done;
    try (intros [= Heq]; by apply Hvalue).
  - destruct (1 <? clock h')%Z; cbn; [done|intros [= Heq]; by apply Hvalue].
  - destruct (e <? clock h')%Z; cbn; [done|intros [= Heq]; by apply Hvalue].
Qed.

(** X3: SaveItemWithExpiration followed, at the instant [t], by GetItem on
    the same key, in a browsing context: the value saved comes back
    unchanged and the host stays as the save left it, unless the stored sum
    of creation instant and [expiresIn] is not 0 and [t] is past it; then
    GetItem returns null and removes the key. *)
Lemma SaveItemWithExpiration_then_GetItem this key item h t :
  browser h = true ->
  let expires :=
    getTime (creationDate (ItemWithExpiry.expires item))
    + expiresIn (ItemWithExpiry.expires item) in
  let h' := at_time t (run (SaveItemWithExpiration this key item) h) in
  GetItem this key h' =
    if negb (expires =? 0)%Z && (expires <? t)%Z
    then (Normal null, set_area (storage this) (delete key (area (storage this) h')) h')
    else (Normal (Val (ItemWithExpiry.value item)), h').
Proof.
  intros Hb expires h'.
  assert (clock h' = t) as Ht by done.
  rewrite <- Ht at 1.
  apply (GetItem_numeric_expires this key h' (JSON_stringify (kvp item)) (kvp item)).
  - subst h'. unfold run. rewrite (SaveItemWithExpiration_browser _ _ _ _ Hb). cbn.
    by rewrite browser_set_area.
  - subst h'. rewrite area_at_time. unfold run.
    rewrite (SaveItemWithExpiration_browser _ _ _ _ Hb). cbn.
    rewrite area_set_area. apply lookup_insert_eq.
  - apply JSON_parse_stringify.
  - done.
Qed.

(** C2: SaveItem writes the text of the bare value, not of a record around
    it, and GetItem reads the [value] property of what it decodes: 42 saved
    under "k" is stored as the text 42 and read back as undefined; null
    saved makes the read throw; a text token is read back as undefined; only
    the [value] member of a saved record comes back. *)
Theorem SaveItem_then_GetItem_loses_the_value :
  localStorage (run (SaveItem durable "k" (plain (JNum 42))) (fresh true T0)) !! "k" =
    Some (JSON_stringify (JNum 42)) /\
  JSON_stringify (JNum 42) <> JSON_stringify (JObj [("value", JNum 42)]) /\
  ((SaveItem durable "k" (plain (JNum 42));; GetItem durable "k") (fresh true T0)).1 =
    Normal Undefined /\
  ((SaveItem durable "k" (plain JNull);; GetItem durable "k") (fresh true T0)).1 =
    Throw TypeError /\
  ((SaveItem tab "validator" (plain (JStr "tok"));; GetItem tab "validator") (fresh true T0)).1 =
    Normal Undefined /\
  ((SaveItem durable "k" (plain (JObj [("value", JNum 1)]));; GetItem durable "k")
     (fresh true T0)).1 = Normal (Val (JNum 1)).
Proof. split; [reflexivity|]. split; [discriminate|]. repeat split. Qed.

(** ** SaveUserSession *)

Lemma load_module_run h : load_module h = (Normal (module_loaded_at (clock h)), h).
Proof. done. Qed.

Lemma loaded_module_expiresIn h M :
  (load_module h).1 = Normal M -> expiresIn (DefaultExpiration M) = 604800.
Proof. rewrite load_module_run. by intros [= <-]. Qed.

Lemma length_filler n : String.length (filler n) = n.
Proof. induction n as [|n IH]; cbn; [done|]. by rewrite IH. Qed.

Section SessionProperties.

Variable rng : Type.
Variable generateRandomToken : nat -> rng -> string * rng.

(** The host SaveUserSession leaves in a browsing context: four entries in
    the durable area, and the validator in the durable or in the
    session-scoped area. *)
Lemma SaveUserSession_run M user rememberMe g h :
  browser h = true ->
  SaveUserSession generateRandomToken M user rememberMe g h =
    (Normal tt,
     let d := DefaultExpiration M in
     let tokens := draw_tokens generateRandomToken g in
     let entries :=
       <["selector" := entry d tokens.1]>
         (<["token" := entry d (token user)]>
            (<["username" := entry d (username user)]>
               (<["name" := entry d (firstName user ++ " " ++ lastName user)]>
                  (localStorage h)))) in
     if rememberMe
     then Host true (clock h) (<["validator" := entry d tokens.2]> entries)
            (sessionStorage h)
     else Host true (clock h) entries
            (<["validator" := JSON_stringify (JStr tokens.2)]> (sessionStorage h))).
Proof.
  intros Hb. unfold SaveUserSession.
  do 4 (erewrite bind_normal; [|by apply SaveItemWithExpiration_browser]).
  destruct rememberMe.
  - rewrite SaveItemWithExpiration_browser by done. cbn. by rewrite Hb.
  - rewrite SaveItem_browser by done. cbn. by rewrite Hb.
Qed.

(** The spec's contract for the generator: a token of the requested
    length. *)
Hypothesis generateRandomToken_length :
  forall (n : nat) (g : rng), String.length (generateRandomToken n g).1 = n.

Lemma draw_tokens_length g :
  String.length (draw_tokens generateRandomToken g).1 = 12%nat /\
  String.length (draw_tokens generateRandomToken g).2 = 32%nat.
Proof.
  unfold draw_tokens.
  pose proof (generateRandomToken_length 12 g) as H1.
  destruct (generateRandomToken 12 g) as [selector g1].
  pose proof (generateRandomToken_length 32 g1) as H2.
  destruct (generateRandomToken 32 g1) as [validator g2].
  done.
Qed.

(** C4, amended: in a browsing context every write of SaveUserSession that
    carries an expiration (name, username, token and selector, and
    validator only when rememberMe is true) stores the entry of the
    module's one DefaultExpiration descriptor, whose [expiresIn] is 604800;
    when rememberMe is false the validator is written bare, with no
    descriptor. *)
Theorem SaveUserSession_uses_DefaultExpiration h0 M user rememberMe g h :
  (load_module h0).1 = Normal M ->
  browser h = true ->
  expiresIn (DefaultExpiration M) = 604800 /\
  Forall
    (fun key : string =>
       exists v : string,
         localStorage (run (SaveUserSession generateRandomToken M user rememberMe g) h)
           !! key = Some (entry (DefaultExpiration M) v))
    (["name"; "username"; "token"; "selector"]
       ++ (if rememberMe then ["validator"] else [])) /\
  (rememberMe = false ->
   sessionStorage (run (SaveUserSession generateRandomToken M user rememberMe g) h)
     !! "validator" = Some (JSON_stringify (JStr (draw_tokens generateRandomToken g).2))).
Proof.
  intros Hload Hb. split; [by eapply loaded_module_expiresIn|].
  unfold run. rewrite (SaveUserSession_run _ _ _ _ _ Hb). cbn.
  split.
  - destruct rememberMe; cbn; repeat constructor; eexists; by simplify_map_eq.
  - intros ->. cbn. by simplify_map_eq.
Qed.

End SessionProperties.

Lemma SaveUserSession_uses_DefaultExpiration_witness :
  (load_module (fresh true 0)).1 = Normal (module_loaded_at 0) /\
  browser (fresh true T0) = true /\
  expiresIn (DefaultExpiration (module_loaded_at 0)) = 604800 /\
  Forall
    (fun key : string =>
       exists v : string,
         localStorage (session_host false) !! key =
           Some (entry (DefaultExpiration (module_loaded_at 0)) v))
    ["name"; "username"; "token"; "selector"] /\
  sessionStorage (session_host false) !! "validator" = Some (JSON_stringify (JStr (filler 32))).
Proof.
  do 2 (split; [reflexivity|]).
  destruct (SaveUserSession_uses_DefaultExpiration unit constant_tokens
              (fresh true 0) (module_loaded_at 0) ada false tt (fresh true T0)
              eq_refl eq_refl) as [H1 [H2 H3]].
  split; [exact H1|]. split; [exact H2|]. exact (H3 eq_refl).
Defined.

(** C4 as stated fails on both counts.  With the module loaded at clock 0 and
    SaveUserSession called for Ada at [T0]: the name entry is the one of a
    descriptor created at 0, not of one created at [T0], the instant of the
    call; and without rememberMe the fifth write leaves no validator entry
    in the durable area: the validator sits bare in the session-scoped
    area. *)
Lemma SaveUserSession_descriptor_not_taken_at_call :
  clock (fresh true T0) = T0 /\
  localStorage (session_host true) !! "name" =
    Some (entry {| creationDate := {| getTime := 0 |}; expiresIn := 604800 |} "Ada Lovelace") /\
  localStorage (session_host true) !! "name" <>
    Some (entry {| creationDate := {| getTime := T0 |}; expiresIn := 604800 |} "Ada Lovelace") /\
  localStorage (session_host true) !! "validator" <>
    Some (entry {| creationDate := {| getTime := T0 |}; expiresIn := 604800 |} (filler 32)) /\
  localStorage (session_host false) !! "validator" = None /\
  sessionStorage (session_host false) !! "validator" = Some (JSON_stringify (JStr (filler 32))).
Proof.
  split; [reflexivity|]. split; [reflexivity|].
  split; [discriminate|]. split; [discriminate|]. split; reflexivity.
Qed.

(** C5: SaveUserSession for Ada in a browsing context at [T0], the module
    loaded at that same instant: the durable area receives name, username,
    token, the 12-character selector and, with rememberMe, the 32-character
    validator, each as a record of the value and of [expires] = [T0] +
    604800; without rememberMe the validator goes bare into the
    session-scoped area and the durable area gets none.  That [expires] is
    604800 milliseconds after the load, not one week: the name is still read
    back at [T0] + 604800 and is evicted one millisecond later, about ten
    minutes after the call; and with the module loaded at clock 0 the name is
    evicted by a read at the instant of the call itself. *)
Theorem SaveUserSession_entries_expire_after_ten_minutes :
  localStorage (prompt_session_host true) !! "name" =
    Some (JSON_stringify
            (JObj [("value", JStr "Ada Lovelace"); ("expires", JNum (T0 + 604800))])) /\
  localStorage (prompt_session_host true) !! "username" =
    Some (JSON_stringify (JObj [("value", JStr "ada"); ("expires", JNum (T0 + 604800))])) /\
  localStorage (prompt_session_host true) !! "token" =
    Some (JSON_stringify (JObj [("value", JStr "tok123"); ("expires", JNum (T0 + 604800))])) /\
  localStorage (prompt_session_host true) !! "selector" =
    Some (JSON_stringify
            (JObj [("value", JStr (filler 12)); ("expires", JNum (T0 + 604800))])) /\
  localStorage (prompt_session_host true) !! "validator" =
    Some (JSON_stringify
            (JObj [("value", JStr (filler 32)); ("expires", JNum (T0 + 604800))])) /\
  sessionStorage (prompt_session_host true) = ∅ /\
  sessionStorage (prompt_session_host false) !! "validator" =
    Some (JSON_stringify (JStr (filler 32))) /\
  localStorage (prompt_session_host false) !! "validator" = None /\
  T0 + 604800 <> T0 + 7 * 24 * 3600 * 1000 /\
  GetItem durable "name" (at_time (T0 + 604800) (prompt_session_host true)) =
    (Normal (Val (JStr "Ada Lovelace")), at_time (T0 + 604800) (prompt_session_host true)) /\
  GetItem durable "name" (at_time (T0 + 604801) (prompt_session_host true)) =
    (Normal null,
     set_area local (delete "name" (localStorage (prompt_session_host true)))
       (at_time (T0 + 604801) (prompt_session_host true))) /\
  GetItem durable "name" (session_host true) =
    (Normal null,
     set_area local (delete "name" (localStorage (session_host true))) (session_host true)).
Proof.
  do 5 (split; [reflexivity|]).
  split; [reflexivity|]. split; [reflexivity|]. split; [reflexivity|].
  split; [discriminate|]. repeat split.
Qed.

(** ** What a call leaves alone *)

Lemma area_set_area_other t t' m h : t <> t' -> area t (set_area t' m h) = area t h.
Proof. by destruct t, t'. Qed.

(** GetItem either leaves the host as it was or, in a browsing context and
    on a key that holds text, answers null with the key removed. *)
Lemma GetItem_cases this key h :
  (GetItem this key h).2 = h \/
  (browser h = true /\
   is_Some (area (storage this) h !! key) /\
   GetItem this key h =
     (Normal null, set_area (storage this) (delete key (area (storage this) h)) h)).
Proof.
  unfold GetItem, mbind, js_bind, get_browser, getItem, parse, new_Date. cbn.
  destruct (browser h) eqn:Hb; cbn; [|by left].
  destruct (area (storage this) h !! key) as [text|] eqn:Hk; cbn; [|by left].
  destruct (String.eqb text EmptyString); cbn; [by left|].
  destruct (JSON_parse text) as [item| |]; cbn; [|by left|by left].
  assert ((get item "value" h).2 = h) as Hget by (by destruct item).
  destruct (truthy (optional_get item "expires")); [|by left].
  destruct (optional_get item "expires") as [|[|[]|e|?|?|?]]; cbn; try (by left).
  - destruct (1 <? clock h)%Z; cbn; [right; by eauto|by left].
  - destruct (e <? clock h)%Z; cbn; [right; by eauto|by left].
Qed.

Lemma same_elsewhere_refl t0 key h : same_elsewhere t0 key h h.
Proof. by repeat split. Qed.

Lemma same_elsewhere_set_area t0 key h m :
  (forall k, k <> key -> m !! k = area t0 h !! k) ->
  same_elsewhere t0 key h (set_area t0 m h).
Proof.
  intros Hm. split; [apply browser_set_area|]. split; [apply clock_set_area|].
  intros t k Hother.
  destruct t, t0; cbn; try done; apply Hm; by destruct Hother.
Qed.

Lemma SaveItem_outside this key item h :
  browser h = false -> SaveItem this key item h = (Normal tt, h).
Proof.
  intros Hb. unfold SaveItem, mbind, js_bind, get_browser. cbn. by rewrite Hb.
Qed.

Lemma SaveItemWithExpiration_outside this key item h :
  browser h = false -> SaveItemWithExpiration this key item h = (Normal tt, h).
Proof.
  intros Hb. unfold SaveItemWithExpiration, mbind, js_bind, get_browser. cbn.
  by rewrite Hb.
Qed.

(** X1: a call on a wrapper leaves the browser flag and the clock alone and
    touches its own storage area only: SaveItem, SaveItemWithExpiration and
    GetItem change nothing but what that area holds under their key, GetItem
    never writes there (the key keeps its text or loses it), and Clear
    leaves the other area as it was. *)
Theorem calls_touch_one_key this key h :
  (forall item, same_elsewhere (storage this) key h (run (SaveItem this key item) h)) /\
  (forall item,
     same_elsewhere (storage this) key h (run (SaveItemWithExpiration this key item) h)) /\
  same_elsewhere (storage this) key h (run (GetItem this key) h) /\
  (area (storage this) (run (GetItem this key) h) !! key = area (storage this) h !! key \/
   area (storage this) (run (GetItem this key) h) !! key = None) /\
  browser (run (Clear this) h) = browser h /\
  clock (run (Clear this) h) = clock h /\
  forall t, t <> storage this -> area t (run (Clear this) h) = area t h.
Proof.
  split; [|split; [|split; [|split]]].
  - intros item. unfold run. destruct (browser h) eqn:Hb.
    + rewrite (SaveItem_browser _ _ _ _ Hb). cbn.
      apply same_elsewhere_set_area. intros k Hk. by apply lookup_insert_ne.
    + rewrite (SaveItem_outside _ _ _ _ Hb). apply same_elsewhere_refl.
  - intros item. unfold run. destruct (browser h) eqn:Hb.
    + rewrite (SaveItemWithExpiration_browser _ _ _ _ Hb). cbn.
      apply same_elsewhere_set_area. intros k Hk. by apply lookup_insert_ne.
    + rewrite (SaveItemWithExpiration_outside _ _ _ _ Hb). apply same_elsewhere_refl.
  - unfold run. destruct (GetItem_cases this key h) as [->|(_ & _ & ->)].
    + apply same_elsewhere_refl.
    + cbn. apply same_elsewhere_set_area. intros k Hk. by apply lookup_delete_ne.
  - unfold run. destruct (GetItem_cases this key h) as [->|(_ & _ & ->)].
    + by left.
    + right. cbn. rewrite area_set_area. apply lookup_delete_eq.
  - change (run (Clear this) h) with (set_area (storage this) ∅ h).
    split; [apply browser_set_area|]. split; [apply clock_set_area|].
    intros t Hne. by apply area_set_area_other.
Qed.

(** X2: reading a key twice in a row is the same as reading it once: the
    second GetItem gives the outcome of the first and leaves the host the
    first one left. *)
Theorem GetItem_twice this key h :
  GetItem this key (run (GetItem this key) h) = GetItem this key h.
Proof.
  unfold run. destruct (GetItem_cases this key h) as [Hsame|(Hb & _ & Hrun)].
  - rewrite Hsame. by destruct (GetItem this key h).
  - rewrite Hrun. cbn. apply GetItem_missing.
    rewrite area_set_area. apply lookup_delete_eq.
Qed.

Lemma SaveItemWithExpiration_then_GetItem_witness :
  browser (fresh true T0) = true /\
  GetItem durable "x" (scenario_host 5) = (Normal (Val (JNum 42)), scenario_host 5) /\
  GetItem durable "x" (scenario_host 11) = (Normal null, fresh true (T0 + 11)).
Proof.
  split; [reflexivity|]. split.
  - exact (SaveItemWithExpiration_then_GetItem durable "x" (expiring (JNum 42) T0 10)
             (fresh true T0) (T0 + 5) eq_refl).
  - etrans;
      [exact (SaveItemWithExpiration_then_GetItem durable "x" (expiring (JNum 42) T0 10)
                (fresh true T0) (T0 + 11) eq_refl)|reflexivity].
Defined.

Lemma SaveItem_then_GetItem_never_returns_the_value_witness :
  browser (fresh true T0) = true /\
  ((SaveItem tab "k" (plain (JObj [("value", JNum 42)]));; GetItem tab "k") (fresh true T0)).1
    <> Normal (Val (JObj [("value", JNum 42)])).
Proof.
  split; [reflexivity|].
  apply (SaveItem_then_GetItem_never_returns_the_value tab "k"). reflexivity.
Defined.

(** ** Saving over an entry, reading what is not an entry *)

Lemma set_area_twice t m1 m2 h : set_area t m2 (set_area t m1 h) = set_area t m2 h.
Proof. by destruct t. Qed.

Lemma write_twice t key text1 text2 h :
  set_area t (<[key := text2]> (area t (set_area t (<[key := text1]> (area t h)) h)))
    (set_area t (<[key := text1]> (area t h)) h)
  = set_area t (<[key := text2]> (area t h)) h.
Proof. by rewrite area_set_area, set_area_twice, insert_insert_eq. Qed.

(** X5: the last save to a key wins: a save of either kind wipes out an
    earlier save of either kind to the same key of the same wrapper, as if
    the earlier one had never been made. *)
Theorem last_save_wins this key (a b : Item.t) (c d : ItemWithExpiry.t) h :
  run (SaveItem this key b) (run (SaveItem this key a) h) = run (SaveItem this key b) h /\
  run (SaveItem this key b) (run (SaveItemWithExpiration this key c) h) =
    run (SaveItem this key b) h /\
  run (SaveItemWithExpiration this key d) (run (SaveItem this key a) h) =
    run (SaveItemWithExpiration this key d) h /\
  run (SaveItemWithExpiration this key d) (run (SaveItemWithExpiration this key c) h) =
    run (SaveItemWithExpiration this key d) h.
Proof.
  unfold run. destruct (browser h) eqn:Hb.
  - assert (forall m, browser (set_area (storage this) m h) = true) as Hb'
      by (intros m; by rewrite browser_set_area).
    repeat split;
      rewrite ?(SaveItem_browser _ _ _ h Hb), ?(SaveItemWithExpiration_browser _ _ _ h Hb);
      cbn [snd];
      rewrite ?(SaveItem_browser _ _ _ _ (Hb' _)),
        ?(SaveItemWithExpiration_browser _ _ _ _ (Hb' _));
      cbn [snd]; apply write_twice.
  - repeat split;
      rewrite ?(SaveItem_outside _ _ _ h Hb), ?(SaveItemWithExpiration_outside _ _ _ h Hb);
      cbn [snd];
      by rewrite ?(SaveItem_outside _ _ _ h Hb), ?(SaveItemWithExpiration_outside _ _ _ h Hb).
Qed.

(** X6: GetItem returns null, throws nothing and changes nothing when the
    key holds no entry, where Contains returns false, and also when the key
    holds the empty text, where Contains returns true. *)
Theorem GetItem_nothing_to_read this key h :
  (area (storage this) h !! key = None ->
   GetItem this key h = (Normal null, h) /\ Contains this key h = (Normal false, h)) /\
  (area (storage this) h !! key = Some EmptyString ->
   GetItem this key h = (Normal null, h) /\ Contains this key h = (Normal true, h)).
Proof.
  split; intros Hk.
  - split; [by apply GetItem_missing|]. rewrite Contains_run, Hk. done.
  - split; [|rewrite Contains_run, Hk; done].
    unfold GetItem, mbind, js_bind, get_browser, getItem. cbn.
    destruct (browser h); cbn; [|done]. by rewrite Hk.
Qed.

Lemma GetItem_nothing_to_read_witness :
  (GetItem durable "k" (fresh true T0) = (Normal null, fresh true T0) /\
   Contains durable "k" (fresh true T0) = (Normal false, fresh true T0)) /\
  (GetItem durable "k" (holding EmptyString) = (Normal null, holding EmptyString) /\
   Contains durable "k" (holding EmptyString) = (Normal true, holding EmptyString)).
Proof.
  split.
  - apply (proj1 (GetItem_nothing_to_read durable "k" (fresh true T0))). reflexivity.
  - apply (proj2 (GetItem_nothing_to_read durable "k" (holding EmptyString))). reflexivity.
Defined.

(** X7: in a browsing context GetItem on a key whose text is not empty and
    is not JSON throws SyntaxError to its caller; nothing is removed, the
    host stays as it was and Contains still returns true. *)
Theorem GetItem_malformed_text_throws this key h text :
  browser h = true ->
  area (storage this) h !! key = Some text ->
  text <> EmptyString ->
  JSON_parse text = Malformed ->
  GetItem this key h = (Throw SyntaxError, h) /\
  Contains this key h = (Normal true, h).
Proof.
  intros Hb Hk Hne Hp. split; [|rewrite Contains_run, Hk; done].
  unfold GetItem, mbind, js_bind, get_browser, getItem, parse. cbn.
  rewrite Hb. cbn. rewrite Hk. cbn.
  apply String.eqb_neq in Hne. rewrite Hne. cbn. by rewrite Hp.
Qed.

Lemma GetItem_malformed_text_throws_witness :
  browser (garbage_host true) = true /\
  localStorage (garbage_host true) !! "k" = Some "not json" /\
  "not json" <> EmptyString /\
  JSON_parse "not json" = Malformed /\
  GetItem durable "k" (garbage_host true) = (Throw SyntaxError, garbage_host true) /\
  Contains durable "k" (garbage_host true) = (Normal true, garbage_host true).
Proof.
  assert ("not json" <> EmptyString) as Hne by discriminate.
  do 2 (split; [reflexivity|]). split; [exact Hne|]. split; [reflexivity|].
  exact (GetItem_malformed_text_throws durable "k" (garbage_host true) "not json"
           eq_refl eq_refl Hne eq_refl).
Defined.

(** X8: in a browsing context GetItem on a key whose text decodes to
    something that is not a record leaves the host as it was and throws
    TypeError when the text is null, and returns undefined when it is a
    number, a text, a boolean or an array. *)
Theorem GetItem_bare_value this key h text item :
  browser h = true ->
  area (storage this) h !! key = Some text ->
  JSON_parse text = Parsed item ->
  (forall members, item <> JObj members) ->
  GetItem this key h =
    (match item with
     | JNull => Throw TypeError
     | _ => Normal Undefined
     end, h).
Proof.
  intros Hb Hk Hp Hbare.
  rewrite (GetItem_decoded _ _ _ _ _ Hb Hk Hp).
  unfold after_decode, mbind, js_bind, new_Date. cbn.
  destruct item as [|b|n|s|elements|members]; try done.
  by destruct (Hbare members).
Qed.

Lemma GetItem_bare_value_witness :
  browser (holding (JSON_stringify JNull)) = true /\
  JSON_parse (JSON_stringify JNull) = Parsed JNull /\
  GetItem durable "k" (holding (JSON_stringify JNull)) =
    (Throw TypeError, holding (JSON_stringify JNull)) /\
  GetItem durable "k" (holding (JSON_stringify (JArr [JNum 1; JStr "a"]))) =
    (Normal Undefined, holding (JSON_stringify (JArr [JNum 1; JStr "a"]))).
Proof.
  do 2 (split; [reflexivity|]). split.
  - exact (GetItem_bare_value durable "k" (holding (JSON_stringify JNull))
             (JSON_stringify JNull) JNull eq_refl eq_refl eq_refl
             ltac:(discriminate)).
  - exact (GetItem_bare_value durable "k"
             (holding (JSON_stringify (JArr [JNum 1; JStr "a"])))
             (JSON_stringify (JArr [JNum 1; JStr "a"])) (JArr [JNum 1; JStr "a"])
             eq_refl eq_refl eq_refl ltac:(discriminate)).
Defined.

(** ** SaveUserSession: guard, frame and reading back *)

Section SessionReadBack.

Variable rng : Type.
Variable generateRandomToken : nat -> rng -> string * rng.

Lemma SaveUserSession_skips_every_write M user rememberMe g h :
  browser h = false ->
  SaveUserSession generateRandomToken M user rememberMe g h = (Normal tt, h).
Proof.
  intros Hb. unfold SaveUserSession.
  do 4 (erewrite bind_normal; [|by apply SaveItemWithExpiration_outside]).
  destruct rememberMe.
  - by apply SaveItemWithExpiration_outside.
  - by apply SaveItem_outside.
Qed.

(** X9: outside a browsing context SaveUserSession writes nothing, with or
    without rememberMe: it returns with the host, both storage areas
    included, as it found it. *)
Theorem SaveUserSession_outside_browser M user g h :
  browser h = false ->
  SaveUserSession generateRandomToken M user true g h = (Normal tt, h) /\
  SaveUserSession generateRandomToken M user false g h = (Normal tt, h).
Proof.
  intros Hb. split; by apply SaveUserSession_skips_every_write.
Qed.

(** X10: SaveUserSession touches the five keys name, username, token,
    selector and validator and nothing else: flag and clock stay, every
    other key of the durable area keeps what it held, the session-scoped
    area changes at most under validator and not at all with rememberMe,
    and without rememberMe the durable validator key keeps what it held. *)
Theorem SaveUserSession_touches_five_keys M user rememberMe g h :
  browser (run (SaveUserSession generateRandomToken M user rememberMe g) h) = browser h /\
  clock (run (SaveUserSession generateRandomToken M user rememberMe g) h) = clock h /\
  (forall k : string,
     k ∉ ["name"; "username"; "token"; "selector"; "validator"] ->
     localStorage (run (SaveUserSession generateRandomToken M user rememberMe g) h) !! k =
       localStorage h !! k) /\
  (forall k : string,
     k <> "validator" ->
     sessionStorage (run (SaveUserSession generateRandomToken M user rememberMe g) h) !! k =
       sessionStorage h !! k) /\
  if rememberMe
  then sessionStorage (run (SaveUserSession generateRandomToken M user rememberMe g) h) =
         sessionStorage h
  else localStorage (run (SaveUserSession generateRandomToken M user rememberMe g) h)
         !! "validator" = localStorage h !! "validator".
Proof.
  unfold run. destruct (browser h) eqn:Hb.
  - rewrite (SaveUserSession_run _ _ _ _ _ _ _ Hb). cbn [snd].
    destruct rememberMe; cbn [browser clock localStorage sessionStorage];
      (split; [done|]); (split; [done|]); (split; [|split]); try done.
    + intros k Hk. repeat (rewrite lookup_insert_ne; [|set_solver]). done.
    + intros k Hk. repeat (rewrite lookup_insert_ne; [|set_solver]). done.
    + intros k Hk. by rewrite lookup_insert_ne.
    + by simplify_map_eq.
  - rewrite (SaveUserSession_skips_every_write _ _ _ _ _ Hb). cbn.
    by destruct rememberMe.
Qed.

(** X11: reading back what SaveUserSession wrote, in a browsing context, at
    the instant [t], the module having been loaded at the instant [loaded]:
    GetItem on the durable wrapper returns each expiring field's text
    (name, username, token, selector, and validator with rememberMe) as long
    as [t] is not past [loaded] + 604800; once it is, GetItem returns null
    and removes the key.  Without rememberMe, GetItem on a session-scoped
    wrapper returns undefined for validator. *)
Theorem SaveUserSession_then_GetItem loaded user rememberMe g h t :
  browser h = true ->
  Forall
    (fun field : string * string =>
       GetItem (new_StorageAPI None) field.1
         (at_time t
            (run (SaveUserSession generateRandomToken (module_loaded_at loaded) user
                    rememberMe g) h)) =
         if negb (loaded + 604800 =? 0)%Z && (loaded + 604800 <? t)%Z
         then (Normal null,
               set_area local
                 (delete field.1
                    (localStorage
                       (run (SaveUserSession generateRandomToken (module_loaded_at loaded)
                               user rememberMe g) h)))
                 (at_time t
                    (run (SaveUserSession generateRandomToken (module_loaded_at loaded)
                            user rememberMe g) h)))
         else (Normal (Val (JStr field.2)),
               at_time t
                 (run (SaveUserSession generateRandomToken (module_loaded_at loaded) user
                         rememberMe g) h)))
    ([("name", firstName user ++ " " ++ lastName user);
      ("username", username user);
      ("token", token user);
      ("selector", (draw_tokens generateRandomToken g).1)]
       ++ (if rememberMe
           then [("validator", (draw_tokens generateRandomToken g).2)]
           else [])) /\
  (rememberMe = false ->
   GetItem (new_StorageAPI (Some session)) "validator"
     (at_time t
        (run (SaveUserSession generateRandomToken (module_loaded_at loaded) user
                rememberMe g) h)) =
     (Normal Undefined,
      at_time t
        (run (SaveUserSession generateRandomToken (module_loaded_at loaded) user
                rememberMe g) h))).
Proof.
  intros Hb. unfold run.
  rewrite (SaveUserSession_run _ _ _ _ _ _ _ Hb). cbn [snd].
  set (d := DefaultExpiration (module_loaded_at loaded)).
  assert (forall (key v : string) (h' : host),
            browser h' = true ->
            clock h' = t ->
            localStorage h' !! key = Some (entry d v) ->
            GetItem (new_StorageAPI None) key h' =
              if negb (loaded + 604800 =? 0)%Z && (loaded + 604800 <? t)%Z
              then (Normal null, set_area local (delete key (localStorage h')) h')
              else (Normal (Val (JStr v)), h')) as Hread.
  { intros key v h' Hb' Ht Hk. rewrite <- Ht.
    apply (GetItem_numeric_expires (new_StorageAPI None) key h' (entry d v)
             (kvp {| ItemWithExpiry.value := JStr v; ItemWithExpiry.expires := d |}));
      [done|done|apply JSON_parse_stringify|done]. }
  split.
  - destruct rememberMe; cbn; repeat constructor; cbn [fst snd];
      apply Hread; try done; by simplify_map_eq.
  - intros ->. cbn.
    rewrite (GetItem_decoded (new_StorageAPI (Some session)) "validator" _
               (JSON_stringify (JStr (draw_tokens generateRandomToken g).2))
               (JStr (draw_tokens generateRandomToken g).2));
      [done|done|by simplify_map_eq|apply JSON_parse_stringify].
Qed.

End SessionReadBack.

Lemma SaveUserSession_outside_browser_witness :
  browser (garbage_host false) = false /\
  SaveUserSession constant_tokens (module_loaded_at 0) ada true tt (garbage_host false) =
    (Normal tt, garbage_host false) /\
  SaveUserSession constant_tokens (module_loaded_at 0) ada false tt (garbage_host false) =
    (Normal tt, garbage_host false).
Proof.
  split; [reflexivity|].
  apply (SaveUserSession_outside_browser unit constant_tokens). reflexivity.
Defined.

Lemma SaveUserSession_then_GetItem_witness :
  browser (fresh true T0) = true /\
  GetItem durable "name" (at_time (T0 + 1) (session_host false)) =
    (Normal null,
     set_area local (delete "name" (localStorage (session_host false)))
       (at_time (T0 + 1) (session_host false))) /\
  GetItem tab "validator" (at_time (T0 + 1) (session_host false)) =
    (Normal Undefined, at_time (T0 + 1) (session_host false)).
Proof.
  split; [reflexivity|].
  destruct (SaveUserSession_then_GetItem unit constant_tokens 0 ada false tt
              (fresh true T0) (T0 + 1) eq_refl) as [Hfields Hvalidator].
  split.
  - apply Forall_cons in Hfields as [Hname _]. exact Hname.
  - exact (Hvalidator eq_refl).
Defined.

(** ** Expiry over time *)

(** X12: expiry only moves one way.  For an entry that decodes to a record
    with a numeric [expires], read in a browsing context: if GetItem at the
    instant [t2] still returns the record's value and keeps the entry, then
    so does GetItem at any instant [t1] not after [t2]. *)
Theorem readable_later_readable_earlier this key h text item e t1 t2 :
  browser h = true ->
  area (storage this) h !! key = Some text ->
  JSON_parse text = Parsed item ->
  optional_get item "expires" = Val (JNum e) ->
  t1 <= t2 ->
  GetItem this key (at_time t2 h) = (Normal (optional_get item "value"), at_time t2 h) ->
  GetItem this key (at_time t1 h) = (Normal (optional_get item "value"), at_time t1 h).
Proof.
  intros Hb Hk Hp He Hle Hlater.
  assert (forall t, area (storage this) (at_time t h) !! key = Some text) as Hk'
    by (intros t; by rewrite area_at_time).
  rewrite (GetItem_numeric_expires this key (at_time t2 h) text item e Hb (Hk' t2) Hp He)
    in Hlater.
  rewrite (GetItem_numeric_expires this key (at_time t1 h) text item e Hb (Hk' t1) Hp He).
  cbn [clock at_time] in *.
  destruct (e =? 0)%Z; [done|]. cbn [negb andb] in *.
  destruct (e <? t2)%Z eqn:Hlt2.
  - exfalso. injection Hlater as _ Hhost.
    assert (area (storage this)
              (set_area (storage this) (delete key (area (storage this) (at_time t2 h)))
                 (at_time t2 h)) !! key = None) as Hgone
      by (rewrite area_set_area; apply lookup_delete_eq).
    rewrite Hhost, Hk' in Hgone. discriminate.
  - apply Z.ltb_ge in Hlt2.
    assert ((e <? t1)%Z = false) as -> by (apply Z.ltb_ge; lia). done.
Qed.

Lemma readable_later_readable_earlier_witness :
  browser (scenario_host 0) = true /\
  localStorage (scenario_host 0) !! "x" = Some (JSON_stringify (kvp (expiring (JNum 42) T0 10))) /\
  T0 + 3 <= T0 + 10 /\
  GetItem durable "x" (at_time (T0 + 10) (scenario_host 0)) =
    (Normal (Val (JNum 42)), at_time (T0 + 10) (scenario_host 0)) /\
  GetItem durable "x" (at_time (T0 + 3) (scenario_host 0)) =
    (Normal (Val (JNum 42)), at_time (T0 + 3) (scenario_host 0)).
Proof.
  assert (T0 + 3 <= T0 + 10) as Hle by (vm_compute; discriminate).
  do 2 (split; [reflexivity|]). split; [exact Hle|]. split; [reflexivity|].
  exact (readable_later_readable_earlier durable "x" (scenario_host 0)
           (JSON_stringify (kvp (expiring (JNum 42) T0 10)))
           (kvp (expiring (JNum 42) T0 10)) (T0 + 10) (T0 + 3) (T0 + 10)
           eq_refl eq_refl eq_refl eq_refl Hle eq_refl).
Defined.
